(** * tasksB.py: the access guards B1/B2 and the task wrappers B3-B10

    A shallow embedding of [src/tasksB.py].  Python strings are modelled as
    [string], read as their UTF-8 bytes: the prefix, suffix and membership
    tests of the source only look for ASCII text, for which bytes and code
    points agree.  Exceptions are an inductive type; the state the functions
    touch (the log, the calls made to external libraries, the contents of
    files) is an explicit [World] threaded through a state-and-error monad.
    The external libraries (requests, subprocess, sqlite3, duckdb, markdown,
    pandas, PIL, the file system) are not part of the repository: their
    answers are supplied by a record of oracles. *)

From Stdlib Require Import ZArith Ascii String List Bool.
From stdpp Require Import base option gmap strings.

Import ListNotations.
Local Open Scope string_scope.
Local Open Scope list_scope.
Local Open Scope Z_scope.

(** ** Python string operations used by the source *)

Module PyStr.

(** [s.startswith(pre)] *)
Fixpoint startswith (s pre : string) {struct pre} : bool :=
  match pre with
  | EmptyString => true
  | String c pre' =>
      match s with
      | EmptyString => false
      | String d s' => Ascii.eqb c d && startswith s' pre'
      end
  end.

(** [s.endswith(suf)]: some tail of [s] is [suf]. *)
Fixpoint endswith (s suf : string) : bool :=
  String.eqb s suf ||
  match s with
  | EmptyString => false
  | String _ s' => endswith s' suf
  end.

(** [needle in hay] on strings: [needle] occurs at some position of [hay]. *)
Fixpoint str_in (needle hay : string) : bool :=
  startswith hay needle ||
  match hay with
  | EmptyString => false
  | String _ hay' => str_in needle hay'
  end.

(** Truthiness of a string: [not s] holds for the empty string only. *)
Definition truthy (s : string) : bool :=
  match s with
  | EmptyString => false
  | String _ _ => true
  end.

(** Propositional readings, independent of the recursive definitions. *)
Definition begins_with (pre s : string) : Prop := exists rest, s = pre +:+ rest.
Definition ends_with (suf s : string) : Prop := exists stem, s = stem +:+ suf.
Definition occurs_in (needle hay : string) : Prop :=
  exists before after, hay = before +:+ needle +:+ after.

End PyStr.
Import PyStr.

(** ** Exceptions, events and the world *)

(** The exceptions that reach a caller.  Every one of them derives from
    Python's [Exception], so an [except Exception] clause catches them all.
    [LibraryError msg] stands for whatever an external library raises; [msg]
    is what [str(e)] gives for it. *)
Inductive exn : Type :=
| HTTPException (status_code : Z) (detail : string)
| PermissionError (msg : string)
| ValueError (msg : string)
| LibraryError (msg : string).

(** The operations a wrapper asks of the outside world. *)
Inductive Op : Type :=
| HttpGet (url : string)                  (* requests.get(url) *)
| RaiseForStatus                          (* response.raise_for_status() *)
| OpenFile (path mode : string)           (* open(path, mode) *)
| FileWrite (path text : string)          (* file.write(text) *)
| FileRead (path : string)                (* file.read() *)
| SubprocessRun (argv : list string)      (* subprocess.run(argv, check=True) *)
| SqliteConnect (db_path : string)        (* sqlite3.connect(db_path) *)
| DuckdbConnect (db_path : string)        (* duckdb.connect(db_path) *)
| ConnCursor                              (* conn.cursor() *)
| CursorExecute (query : string)          (* cur.execute(query) *)
| CursorFetchall                          (* cur.fetchall() *)
| ConnClose                               (* conn.close() *)
| ImageOpen (path : string)               (* Image.open(path), B7 only *)
| ImageResize                             (* img.resize(resize), B7 only *)
| ImageSave (path : string)               (* img.save(path), B7 only *)
| MarkdownRender                          (* markdown.markdown(text) *)
| ReadCsv (path : string)                 (* pd.read_csv(path) *)
| FrameFilter (column value : string).    (* df[df[column] == value] *)

(** What the process leaves behind: log records, and one record per
    operation asked of the outside world, with the message of the exception
    it raised, if it raised one. *)
Inductive Event : Type :=
| LogError (msg : string)
| LogInfo (msg : string)
| Called (op : Op) (raised : option string).

(** The state a call can read or change: the events so far, oldest first,
    and the contents of the files, by path. *)
Record World : Type := mkWorld {
  events : list Event;
  files : gmap string string
}.

Definition add_event (e : Event) (w : World) : World :=
  {| events := events w ++ [e]; files := files w |}.

Definition set_file (path text : string) (w : World) : World :=
  {| events := events w; files := <[path := text]> (files w) |}.

(** The operations among a list of events, and the messages of those that
    raised. *)
Fixpoint calls (evs : list Event) : list Op :=
  match evs with
  | [] => []
  | Called op _ :: evs' => op :: calls evs'
  | _ :: evs' => calls evs'
  end.

Fixpoint failures (evs : list Event) : list string :=
  match evs with
  | [] => []
  | Called _ (Some msg) :: evs' => msg :: failures evs'
  | _ :: evs' => failures evs'
  end.

(** ** The monad: state passing with exceptions *)

Definition M (A : Type) : Type := World -> (exn + A) * World.

Definition ret {A} (a : A) : M A := fun w => (inr a, w).

Definition raise {A} (e : exn) : M A := fun w => (inl e, w).

Definition bind {A B} (c : M A) (k : A -> M B) : M B :=
  fun w =>
    match c w with
    | (inl e, w') => (inl e, w')
    | (inr a, w') => k a w'
    end.

Notation "x <- c ;; k" := (bind c (fun x => k))
  (at level 100, c at next level, right associativity).
Notation "c ;;; k" := (bind c (fun _ => k))
  (at level 100, right associativity).

(** [try: body except Exception as e: handler(e)] *)
Definition try_except {A} (body : M A) (handler : exn -> M A) : M A :=
  fun w =>
    match body w with
    | (inl e, w') => handler e w'
    | (inr a, w') => (inr a, w')
    end.

Definition logging_error (msg : string) : M unit :=
  fun w => (inr tt, add_event (LogError msg) w).

Definition logging_info (msg : string) : M unit :=
  fun w => (inr tt, add_event (LogInfo msg) w).

(** Asking the outside world for [op]: the oracle's answer for the current
    world is either the message of the exception raised or the value
    returned; either way the call is recorded. *)
Definition call {A} (op : Op) (answer : World -> string + A) : M A :=
  fun w =>
    match answer w with
    | inl msg => (inl (LibraryError msg), add_event (Called op (Some msg)) w)
    | inr a => (inr a, add_event (Called op None) w)
    end.

(** ** The access guards *)

Definition access_denied_detail : string := "Access outside /data is not allowed.".

(** B1 (lines 22-27). *)
Definition B1 (filepath : string) : M bool :=
  if negb (startswith filepath "/data") then
    logging_error ("Unauthorized access attempt: " +:+ filepath) ;;;
    raise (HTTPException 403 access_denied_detail)
  else ret true.

(** B2 (lines 30-35); [mode] defaults to ["r"] in the source. *)
Definition B2 (filepath : string) (mode : string) : M bool :=
  if str_in "w" mode || str_in "x" mode || str_in "a" mode then
    logging_error ("Unauthorized modification attempt: " +:+ filepath) ;;;
    raise (PermissionError "Modifications to files are not allowed.")
  else ret true.

(** ** The outside world *)

Record Response : Type := mkResponse { resp_status : Z; resp_text : string }.

Inductive Backend : Type := Sqlite | Duckdb.

Record Conn : Type := mkConn { conn_backend : Backend; conn_db : string }.

(** A cell of a pandas frame, with the type pandas inferred for its
    column: text, an integer, or anything else (a float, a boolean, a
    missing value). *)
Inductive Cell : Type :=
| CStr (s : string)
| CInt (z : Z)
| COther.

(** [cell == value] for a [str] value: only a text cell can equal it; a
    number never equals a string. *)
Definition cell_equals_str (cell : Cell) (value : string) : bool :=
  match cell with
  | CStr s => String.eqb s value
  | CInt _ => false
  | COther => false
  end.

(** A pandas frame: column names and rows of cells. *)
Record DataFrame : Type := mkFrame {
  columns : list string;
  rows : list (list Cell)
}.

(** The libraries the module imports are not in the repository.  Their
    behaviour is a parameter: which operation raises in which world and with
    what message, what the operations that produce data return, and what a
    database engine leaves in its database file after an operation. *)
Record Externals : Type := mkExternals {
  fails : World -> Op -> option string;
  http_response : World -> string -> Response;
  http_error_message : Response -> string;
  fetch_rows : World -> Conn -> string -> list (list string);
  db_file_after : World -> Conn -> Op -> string;
  str_rows : list (list string) -> string;
  markdown_html : string -> string;
  parse_csv : string -> DataFrame;
  image_data : World -> string -> string;
  str_http_exception : Z -> string -> string
}.

Definition no_such_file (path : string) : string :=
  "[Errno 2] No such file or directory: '" +:+ path +:+ "'".

Fixpoint index_of (name : string) (names : list string) : option nat :=
  match names with
  | [] => None
  | n :: names' =>
      if String.eqb n name then Some O
      else match index_of name names' with
           | Some i => Some (S i)
           | None => None
           end
  end.

(** [df[df[column] == value]] for a [str] value (what a request parameter
    carries): the rows whose cell under [column] equals [value]; a missing
    column is a [KeyError], whose [str] is the quoted name. *)
Definition frame_filter (df : DataFrame) (column value : string)
  : string + DataFrame :=
  match index_of column (columns df) with
  | None => inl ("'" +:+ column +:+ "'")
  | Some i =>
      inr {| columns := columns df;
             rows := List.filter
                       (fun row => match nth_error row i with
                                   | Some cell => cell_equals_str cell value
                                   | None => false
                                   end)
                       (rows df) |}
  end.

Section Wrappers.

Variable ext : Externals.

(** [str(e)] *)
Definition str_exn (e : exn) : string :=
  match e with
  | HTTPException code detail => str_http_exception ext code detail
  | PermissionError msg => msg
  | ValueError msg => msg
  | LibraryError msg => msg
  end.

(** An operation that may raise on its own account before it computes
    [value]. *)
Definition ask {A} (op : Op) (value : World -> string + A) : M A :=
  call op (fun w => match fails ext w op with
                    | Some msg => inl msg
                    | None => value w
                    end).

Definition modify (f : World -> World) : M unit := fun w => (inr tt, f w).

Definition requests_get (url : string) : M Response :=
  ask (HttpGet url) (fun w => inr (http_response ext w url)).

(** [raise_for_status] raises for the 4xx and 5xx codes. *)
Definition raise_for_status (r : Response) : M unit :=
  call RaiseForStatus
       (fun _ => if (400 <=? resp_status r) && (resp_status r <? 600)
                 then inl (http_error_message ext r) else inr tt).

(** [open(path, 'w')] truncates the file. *)
Definition open_w (path : string) : M unit :=
  ask (OpenFile path "w") (fun _ => inr tt) ;;;
  modify (set_file path "").

Definition file_write (path text : string) : M unit :=
  ask (FileWrite path text) (fun _ => inr tt) ;;;
  modify (set_file path text).

Definition open_r (path : string) : M unit :=
  ask (OpenFile path "r")
      (fun w => match files w !! path with
                | None => inl (no_such_file path)
                | Some _ => inr tt
                end).

Definition file_read (path : string) : M string :=
  ask (FileRead path) (fun w => inr (default "" (files w !! path))).

Definition subprocess_run (argv : list string) : M unit :=
  ask (SubprocessRun argv) (fun _ => inr tt).

(** A database engine works on the file its connection names: connecting
    creates the file when there is none, and executing a statement or
    closing may rewrite it.  What the file holds afterwards is the
    engine's business. *)
Definition db_rewrite (conn : Conn) (op : Op) (w : World) : World :=
  set_file (conn_db conn) (db_file_after ext w conn op) w.

Definition db_op {A} (conn : Conn) (op : Op) (value : World -> string + A) : M A :=
  a <- ask op value ;;
  modify (db_rewrite conn op) ;;;
  ret a.

Definition sqlite3_connect (db_path : string) : M Conn :=
  db_op (mkConn Sqlite db_path) (SqliteConnect db_path)
        (fun _ => inr (mkConn Sqlite db_path)).

Definition duckdb_connect (db_path : string) : M Conn :=
  db_op (mkConn Duckdb db_path) (DuckdbConnect db_path)
        (fun _ => inr (mkConn Duckdb db_path)).

Definition conn_cursor (conn : Conn) : M Conn :=
  ask ConnCursor (fun _ => inr conn).

Definition cursor_execute (cur : Conn) (query : string) : M unit :=
  db_op cur (CursorExecute query) (fun _ => inr tt).

Definition cursor_fetchall (cur : Conn) (query : string) : M (list (list string)) :=
  ask CursorFetchall (fun w => inr (fetch_rows ext w cur query)).

Definition conn_close (conn : Conn) : M unit :=
  db_op conn ConnClose (fun _ => inr tt).

Definition markdown_markdown (text : string) : M string :=
  ask MarkdownRender (fun _ => inr (markdown_html ext text)).

Definition pd_read_csv (path : string) : M DataFrame :=
  ask (ReadCsv path)
      (fun w => match files w !! path with
                | None => inl (no_such_file path)
                | Some text => inr (parse_csv ext text)
                end).

Definition df_filter (df : DataFrame) (column value : string) : M DataFrame :=
  call (FrameFilter column value) (fun _ => frame_filter df column value).

(** The handler every wrapper ends with:
    [logging.error(f"<what>{e}"); raise HTTPException(500, detail=str(e))]. *)
Definition except_500 (what : string) (e : exn) : M bool :=
  logging_error (what +:+ str_exn e) ;;;
  raise (HTTPException 500 (str_exn e)).

Definition deny : M bool := raise (HTTPException 403 access_denied_detail).

(** *** B3: fetch data from an API and save it (lines 38-51) *)

Definition B3_try (url save_path : string) : M bool :=
  response <- requests_get url ;;
  raise_for_status response ;;;
  open_w save_path ;;;
  file_write save_path (resp_text response) ;;;
  logging_info ("Data fetched from " +:+ url +:+ " and saved to " +:+ save_path) ;;;
  ret true.

Definition B3 (url save_path : string) : M bool :=
  ok <- B1 save_path ;;
  if negb ok then deny
  else try_except (B3_try url save_path) (except_500 "Failed to fetch data: ").

(** *** B4: clone a git repository and make a commit (lines 54-66) *)

Definition repo_path : string := "/data/repo".

Definition B4_try (repo_url commit_message : string) : M bool :=
  subprocess_run ["git"; "clone"; repo_url; repo_path] ;;;
  subprocess_run ["git"; "-C"; repo_path; "commit"; "-m"; commit_message] ;;;
  logging_info ("Repo cloned and commit made: " +:+ repo_url) ;;;
  ret true.

Definition B4 (repo_url commit_message : string) : M bool :=
  ok <- B1 repo_path ;;
  if negb ok then deny
  else try_except (B4_try repo_url commit_message)
                  (except_500 "Failed to clone repo or make commit: ").

(** *** B5: run a SQL query on SQLite or DuckDB (lines 69-88) *)

Definition db_type (db_path : string) : string :=
  if endswith db_path ".db" then "sqlite" else "duckdb".

Definition B5_try (db_path query output_filename : string) : M bool :=
  conn <- (if String.eqb (db_type db_path) "sqlite"
           then sqlite3_connect db_path else duckdb_connect db_path) ;;
  cur <- conn_cursor conn ;;
  cursor_execute cur query ;;;
  result <- cursor_fetchall cur query ;;
  conn_close conn ;;;
  open_w output_filename ;;;
  file_write output_filename (str_rows ext result) ;;;
  logging_info ("Query executed and result saved to " +:+ output_filename) ;;;
  ret true.

(** [not B1(a) or not B1(b)]: [or] evaluates its right operand only when
    the left one is false. *)
Definition either_denied (a b : string) : M bool :=
  ok_a <- B1 a ;;
  if negb ok_a then ret true
  else ok_b <- B1 b ;; ret (negb ok_b).

Definition B5 (db_path query output_filename : string) : M bool :=
  denied <- either_denied db_path output_filename ;;
  if denied then deny
  else try_except (B5_try db_path query output_filename)
                  (except_500 "Failed to execute query: ").

(** *** B6: web scraping (lines 91-104) *)

Definition B6_try (url output_filename : string) : M bool :=
  response <- requests_get url ;;
  raise_for_status response ;;;
  open_w output_filename ;;;
  file_write output_filename (resp_text response) ;;;
  logging_info ("Website scraped and saved to " +:+ output_filename) ;;;
  ret true.

Definition B6 (url output_filename : string) : M bool :=
  ok <- B1 output_filename ;;
  if negb ok then deny
  else try_except (B6_try url output_filename)
                  (except_500 "Failed to scrape website: ").

(** *** B7: image processing (lines 107-121)

    The source keeps this function inside a string literal, so the module
    does not bind it; it is embedded from that text, for the record. *)

Definition B7_try (image_path output_path : string) (resize : option (Z * Z))
  : M bool :=
  ask (ImageOpen image_path) (fun _ => inr tt) ;;;
  match resize with
  | Some _ => ask ImageResize (fun _ => inr tt)
  | None => ret tt
  end ;;;
  data <- ask (ImageSave output_path) (fun w => inr (image_data ext w image_path)) ;;
  modify (set_file output_path data) ;;;
  logging_info ("Image processed and saved to " +:+ output_path) ;;;
  ret true.

Definition B7 (image_path output_path : string) (resize : option (Z * Z))
  : M bool :=
  denied <- either_denied image_path output_path ;;
  if denied then deny
  else try_except (B7_try image_path output_path resize)
                  (except_500 "Failed to process image: ").

(** *** B8: audio transcription, a stub (lines 125-136) *)

Definition B8_try (audio_path : string) : M bool :=
  let transcription :=
    "Transcription feature needs integration with an external API like Whisper." in
  logging_info ("Audio transcription requested for " +:+ audio_path) ;;;
  ret true.

Definition B8 (audio_path : string) : M bool :=
  ok <- B1 audio_path ;;
  if negb ok then deny
  else try_except (B8_try audio_path) (except_500 "Failed to transcribe audio: ").

(** *** B9: convert Markdown to HTML (lines 139-152) *)

Definition B9_try (md_path output_path : string) : M bool :=
  open_r md_path ;;;
  text <- file_read md_path ;;
  html <- markdown_markdown text ;;
  open_w output_path ;;;
  file_write output_path html ;;;
  logging_info ("Markdown converted and saved to " +:+ output_path) ;;;
  ret true.

Definition B9 (md_path output_path : string) : M bool :=
  denied <- either_denied md_path output_path ;;
  if denied then deny
  else try_except (B9_try md_path output_path)
                  (except_500 "Failed to convert markdown: ").

(** *** B10: filter a CSV (lines 155-166) *)

Definition B10_try (csv_path filter_column filter_value : string) : M bool :=
  df <- pd_read_csv csv_path ;;
  filtered <- df_filter df filter_column filter_value ;;
  logging_info "CSV filtered and returned JSON data" ;;;
  ret true.

Definition B10 (csv_path filter_column filter_value : string) : M bool :=
  ok <- B1 csv_path ;;
  if negb ok then deny
  else try_except (B10_try csv_path filter_column filter_value)
                  (except_500 "Failed to filter CSV: ").

End Wrappers.

(** ** Module initialisation (lines 15-19 and the [def] statements) *)

Inductive PyValue : Type :=
| PyNone
| PyStr (s : string)
| PyApp                       (* the FastAPI() instance *)
| PyFunction (name : string).

(** Truthiness as [not x] reads it. *)
Definition py_truthy (v : PyValue) : bool :=
  match v with
  | PyNone => false
  | PyStr s => truthy s
  | PyApp => true
  | PyFunction _ => true
  end.

(** [os.environ.get(key)]: [None] when the variable is not set. *)
Definition environ_get (environ : gmap string string) (key : string) : PyValue :=
  match environ !! key with
  | Some v => PyStr v
  | None => PyNone
  end.

(** The names the module binds once the token check has passed, in source
    order; B7 is not among them. *)
Definition handler_names : list string :=
  ["B1"; "B2"; "B3"; "B4"; "B5"; "B6"; "B8"; "B9"; "B10"].

Definition define (ns : gmap string PyValue) (name : string) : gmap string PyValue :=
  <[name := PyFunction name]> ns.

(** Running the module body: the namespace it ends with, or the exception
    that aborts the import. *)
Definition module_init (environ : gmap string string) : exn + gmap string PyValue :=
  let ns := <["AIPROXY_TOKEN" := environ_get environ "AIPROXY_TOKEN"]> ∅ in
  if negb (py_truthy (default PyNone (ns !! "AIPROXY_TOKEN"))) then
    inl (ValueError "AIPROXY_TOKEN not set. Please configure it in your environment.")
  else
    let ns := <["app" := PyApp]> ns in
    inr (fold_left define handler_names ns).

(** ** The path confinement the specification words

    The specification asks for a lexical check after normalisation: empty
    and ["."] segments dropped, [".."] stepping up (never above ["/"]), a
    relative path read from the working directory, and the result equal to
    or nested under the root [/data].  The source has no such function;
    this one follows the specification's words, to be compared with [B1]. *)

Module SpecPath.

Fixpoint split_on (sep : ascii) (s : string) : list string :=
  match s with
  | EmptyString => [EmptyString]
  | String c s' =>
      if Ascii.eqb c sep then EmptyString :: split_on sep s'
      else match split_on sep s' with
           | seg :: segs => String c seg :: segs
           | [] => [String c EmptyString]
           end
  end.

(** [stack] holds the directories entered so far, innermost first. *)
Fixpoint resolve (stack segs : list string) : list string :=
  match segs with
  | [] => stack
  | seg :: segs' =>
      if String.eqb seg "" || String.eqb seg "." then resolve stack segs'
      else if String.eqb seg ".." then resolve (tail stack) segs'
      else resolve (seg :: stack) segs'
  end.

Definition normalize (cwd : list string) (path : string) : list string :=
  rev (resolve (if startswith path "/" then [] else rev cwd)
               (split_on "/" path)).

Definition root : list string := ["data"].

Fixpoint nested_under (root path : list string) : bool :=
  match root, path with
  | [], _ => true
  | r :: root', p :: path' => String.eqb r p && nested_under root' path'
  | _ :: _, [] => false
  end.

Definition under_root (cwd : list string) (path : string) : bool :=
  nested_under root (normalize cwd path).

End SpecPath.

(** ** Concrete worlds used to evaluate the code *)

Definition empty_world : World := {| events := []; files := ∅ |}.

(** An outside world in which nothing goes wrong. *)
Definition ext_ok : Externals :=
  {| fails := fun _ _ => None;
     http_response := fun _ _ => mkResponse 200 "payload";
     http_error_message := fun _ => "HTTP error";
     fetch_rows := fun _ _ _ => [["1"]];
     db_file_after := fun w conn _ => default "" (files w !! conn_db conn);
     str_rows := fun _ => "[(1,)]";
     markdown_html := fun text => "<p>" +:+ text +:+ "</p>";
     parse_csv := fun _ => mkFrame ["name"; "city"]
                                   [[CStr "Ann"; CStr "Oslo"];
                                    [CStr "Bob"; CStr "Rome"]];
     image_data := fun _ _ => "";
     str_http_exception := fun _ detail => detail |}.

Definition csv_world : World :=
  {| events := [];
     files := {["/data/people.csv" := "name,city
Ann,Oslo
Bob,Rome
"]} |}.

(** An upstream server that answers 404. *)
Definition ext_404 : Externals :=
  {| fails := fails ext_ok;
     http_response := fun _ _ => mkResponse 404 "not here";
     http_error_message := fun _ => "404 Client Error";
     fetch_rows := fetch_rows ext_ok;
     db_file_after := db_file_after ext_ok;
     str_rows := str_rows ext_ok;
     markdown_html := markdown_html ext_ok;
     parse_csv := parse_csv ext_ok;
     image_data := image_data ext_ok;
     str_http_exception := str_http_exception ext_ok |}.




Definition md_world : World :=
  {| events := []; files := {["/data/readme.md" := "hello"]} |}.

(** ** Vocabulary of the properties *)

Definition B1_rejection (filepath : string) (w : World) : (exn + bool) * World :=
  (inl (HTTPException 403 access_denied_detail),
   add_event (LogError ("Unauthorized access attempt: " +:+ filepath)) w).

Definition B2_rejection (filepath : string) (w : World) : (exn + bool) * World :=
  (inl (PermissionError "Modifications to files are not allowed."),
   add_event (LogError ("Unauthorized modification attempt: " +:+ filepath)) w).

Definition token_missing : exn :=
  ValueError "AIPROXY_TOKEN not set. Please configure it in your environment.".

(** A computation is [faithful] when it raises exactly if one of the
    operations it asked for raised, stops there, and raises that very
    error; [Q] holds of the value it returns otherwise. *)
Definition faithful {A} (c : M A) (Q : A -> Prop) : Prop :=
  forall w, exists evs,
    events (snd (c w)) = events w ++ evs /\
    match fst (c w) with
    | inr a => Q a /\ failures evs = []
    | inl e => exists msg, e = LibraryError msg /\ failures evs = [msg]
    end.

(** What the caller of a [try ... except Exception] block with the 500
    handler sees: True after a run in which no operation raised, or the
    500 HTTPException whose detail is the message of the one operation
    that raised. *)
Definition handled (run : M bool) : Prop :=
  forall w, exists evs,
    events (snd (run w)) = events w ++ evs /\
    match fst (run w) with
    | inr v => v = true /\ failures evs = []
    | inl e => exists msg, e = HTTPException 500 msg /\ failures evs = [msg]
    end.

(** What the caller of a whole wrapper sees, [paths] being the paths it
    hands to B1. *)
Definition surfaces (paths : list string) (run : M bool) : Prop :=
  forall w, exists evs,
    events (snd (run w)) = events w ++ evs /\
    (Forall (begins_with "/data") paths ->
     match fst (run w) with
     | inr v => v = true /\ failures evs = []
     | inl e => exists msg, e = HTTPException 500 msg /\ failures evs = [msg]
     end) /\
    (~ Forall (begins_with "/data") paths ->
     fst (run w) = inl (HTTPException 403 access_denied_detail) /\
     calls evs = []).

(** The engines connected to, among a list of operations. *)
Fixpoint backends (ops : list Op) : list Backend :=
  match ops with
  | [] => []
  | SqliteConnect _ :: ops' => Sqlite :: backends ops'
  | DuckdbConnect _ :: ops' => Duckdb :: backends ops'
  | _ :: ops' => backends ops'
  end.

(** A computation that connects to no database. *)
Definition quiet {A} (c : M A) : Prop :=
  forall w, exists evs,
    events (snd (c w)) = events w ++ evs /\ backends (calls evs) = [].

(** A computation whose first event is the operation [op], and which
    connects to no database afterwards. *)
Definition starts_with {A} (op : Op) (c : M A) : Prop :=
  forall w, exists raised rest,
    events (snd (c w)) = events w ++ Called op raised :: rest /\
    backends (calls rest) = [].

(** The outcome of running [c] from [w] satisfies [R]. *)
Definition post {A} (c : M A) (w : World) (R : exn + A -> World -> Prop) : Prop :=
  R (fst (c w)) (snd (c w)).

(** Two outcomes that agree on everything but the log records. *)
Definition same_but_for_the_log {A} (o1 o2 : (exn + A) * World) : Prop :=
  fst o1 = fst o2 /\
  files (snd o1) = files (snd o2) /\
  calls (events (snd o1)) = calls (events (snd o2)).

Definition git_clone (repo_url : string) : Op :=
  SubprocessRun ["git"; "clone"; repo_url; "/data/repo"].

Definition git_commit (commit_message : string) : Op :=
  SubprocessRun ["git"; "-C"; "/data/repo"; "commit"; "-m"; commit_message].

(** A path written in normal form: absolute, and its segments as written
    are those of its normalisation (no empty, "." or ".." segment). *)
Definition written_normalised (cwd : list string) (path : string) : Prop :=
  SpecPath.split_on "/" path = "" :: SpecPath.normalize cwd path.






(** * Properties *)

(** ** Strings and event lists *)

Lemma startswith_spec s pre : startswith s pre = true <-> begins_with pre s.
Proof.
  revert s. induction pre as [|c pre IH]; intros s; simpl.
  - split; [intros _; exists s; reflexivity | reflexivity].
  - destruct s as [|d s].
    + split; [discriminate | intros [rest H]; discriminate].
    + rewrite andb_true_iff, Ascii.eqb_eq, IH. split.
      * intros [-> [rest ->]]. exists rest. reflexivity.
      * intros [rest H]. simpl in H. injection H as -> ->.
        split; [reflexivity | exists rest; reflexivity].
Qed.

Lemma startswith_false s pre : startswith s pre = false <-> ~ begins_with pre s.
Proof.
  rewrite <- startswith_spec. destruct (startswith s pre); split; congruence.
Qed.

Lemma endswith_spec s suf : endswith s suf = true <-> ends_with suf s.
Proof.
  induction s as [|c s IH]; cbn [endswith].
  - rewrite orb_false_r, String.eqb_eq. split.
    + intros <-. exists "". reflexivity.
    + intros [stem H]. destruct stem; simpl in H; [auto | discriminate].
  - rewrite orb_true_iff, String.eqb_eq, IH. split.
    + intros [<- | [stem ->]]; [exists "" | exists (String c stem)]; reflexivity.
    + intros [stem H]. destruct stem as [|d stem]; simpl in H.
      * left. auto.
      * injection H as -> ->. right. exists stem. reflexivity.
Qed.

Lemma endswith_false s suf : endswith s suf = false <-> ~ ends_with suf s.
Proof.
  rewrite <- endswith_spec. destruct (endswith s suf); split; congruence.
Qed.

Lemma str_in_spec needle hay : str_in needle hay = true <-> occurs_in needle hay.
Proof.
  induction hay as [|c hay IH]; cbn [str_in].
  - rewrite orb_false_r, startswith_spec. split.
    + intros [rest H]. exists "", rest. exact H.
    + intros [before [after H]].
      destruct before; simpl in H; [exists after; exact H | discriminate].
  - rewrite orb_true_iff, startswith_spec, IH. split.
    + intros [[rest H] | [before [after H]]].
      * exists "", rest. exact H.
      * exists (String c before), after. simpl. rewrite H. reflexivity.
    + intros [before [after H]]. destruct before as [|d before]; simpl in H.
      * left. exists after. exact H.
      * injection H as -> ->. right. exists before, after. reflexivity.
Qed.

(** For a one-character needle, [in] is membership of that character. *)
Lemma str_in_char c hay :
  str_in (String c "") hay = existsb (Ascii.eqb c) (list_ascii_of_string hay).
Proof.
  induction hay as [|d hay IH]; simpl; [reflexivity |].
  rewrite IH. destruct (Ascii.eqb c d); reflexivity.
Qed.

Lemma calls_app evs1 evs2 : calls (evs1 ++ evs2) = calls evs1 ++ calls evs2.
Proof.
  induction evs1 as [|[m|m|op r] evs1 IH]; simpl; [reflexivity | auto | auto |].
  now rewrite IH.
Qed.

Lemma failures_app evs1 evs2 :
  failures (evs1 ++ evs2) = failures evs1 ++ failures evs2.
Proof.
  induction evs1 as [|[m|m|op [msg|]] evs1 IH]; simpl; auto.
  now rewrite IH.
Qed.

(** ** The guards *)

Lemma B1_accept filepath w :
  startswith filepath "/data" = true -> B1 filepath w = (inr true, w).
Proof. intros H. unfold B1. rewrite H. reflexivity. Qed.

Lemma B1_reject filepath w :
  startswith filepath "/data" = false -> B1 filepath w = B1_rejection filepath w.
Proof. intros H. unfold B1. rewrite H. reflexivity. Qed.

Lemma B1_cases filepath w :
  (startswith filepath "/data" = true /\ B1 filepath w = (inr true, w)) \/
  (startswith filepath "/data" = false /\ B1 filepath w = B1_rejection filepath w).
Proof.
  destruct (startswith filepath "/data") eqn:H;
    [left; split; [|apply B1_accept] | right; split; [|apply B1_reject]]; auto.
Qed.

Lemma begins_with_slash_data p : begins_with "/data/" p -> begins_with "/data" p.
Proof. intros [rest ->]. exists ("/" +:+ rest). reflexivity. Qed.

Lemma relative_not_under_prefix p : ~ begins_with "/" p -> ~ begins_with "/data" p.
Proof. intros H [rest ->]. apply H. exists ("data" +:+ rest). reflexivity. Qed.

(** What a refusal looks like: a path string that does not begin with the
    characters "/data" gets the 403 HTTPException, whose detail is a fixed
    message; the offending path goes into the error log record and nothing
    else changes. *)
Lemma B1_refuses_unprefixed_paths (filepath : string) (w : World) :
  ~ begins_with "/data" filepath ->
  B1 filepath w =
    (inl (HTTPException 403 "Access outside /data is not allowed."),
     {| events := events w ++ [LogError ("Unauthorized access attempt: " +:+ filepath)];
        files := files w |}).
Proof.
  intros H. apply startswith_false in H. rewrite (B1_reject _ _ H). reflexivity.
Qed.

(** C1, the code at two failing inputs: "/database/secret", a sibling
    directory that shares the prefix, and "/data/../etc/passwd", an escape
    through "..", lie outside /data once normalised, and B1 accepts both
    instead of refusing them with 403. *)
Lemma B1_admits_paths_outside_root :
  SpecPath.under_root ["app"] "/database/secret" = false /\
  B1 "/database/secret" empty_world = (inr true, empty_world) /\
  SpecPath.under_root ["app"] "/data/../etc/passwd" = false /\
  B1 "/data/../etc/passwd" empty_world = (inr true, empty_world).
Proof. repeat split; reflexivity. Qed.

(** C3 as stated fails: a relative path read from the working directory
    /data, and an absolute path that reaches /data through "..", both
    normalise to /data/out.csv and are refused by B1. *)
Lemma B1_refuses_paths_that_normalise_under_root :
  SpecPath.under_root ["data"] "out.csv" = true /\
  B1 "out.csv" empty_world = B1_rejection "out.csv" empty_world /\
  SpecPath.under_root [] "/tmp/../data/out.csv" = true /\
  B1 "/tmp/../data/out.csv" empty_world =
    B1_rejection "/tmp/../data/out.csv" empty_world.
Proof. repeat split; reflexivity. Qed.

Lemma split_on_nonempty sep s : SpecPath.split_on sep s <> [].
Proof.
  destruct s as [|c s]; cbn; [discriminate |].
  destruct (Ascii.eqb c sep); [discriminate |].
  destruct (SpecPath.split_on sep s); discriminate.
Qed.

(** The first segment of a split is how the string begins. *)
Lemma split_on_head sep s seg rest :
  SpecPath.split_on sep s = seg :: rest ->
  (rest = [] /\ s = seg) \/
  (exists s', s = seg +:+ String sep s' /\ SpecPath.split_on sep s' = rest).
Proof.
  revert seg rest. induction s as [|c s IH]; intros seg rest H; cbn in H.
  - injection H as <- <-. left. auto.
  - destruct (Ascii.eqb c sep) eqn:E.
    + apply Ascii.eqb_eq in E. subst c. injection H as <- <-.
      right. exists s. auto.
    + destruct (SpecPath.split_on sep s) as [|seg' segs] eqn:Es.
      * destruct (split_on_nonempty sep s Es).
      * injection H as <- <-.
        destruct (IH seg' segs eq_refl) as [[-> ->] | [s' [-> Hs']]].
        -- left. auto.
        -- right. exists s'. auto.
Qed.

Lemma split_on_begins sep s seg rest :
  SpecPath.split_on sep s = seg :: rest -> begins_with seg s.
Proof.
  intros H. destruct (split_on_head _ _ _ _ H) as [[_ ->] | [s' [-> _]]].
  - exists "". clear H. induction seg as [|c seg IH]; [reflexivity |].
    change (String c seg = String c (seg +:+ "")). rewrite <- IH. reflexivity.
  - eexists. reflexivity.
Qed.

(** A path written in normal form under the root begins with "/data". *)
Lemma written_normalised_under_root cwd path :
  written_normalised cwd path ->
  SpecPath.under_root cwd path = true ->
  begins_with "/data" path.
Proof.
  unfold written_normalised, SpecPath.under_root, SpecPath.root.
  intros Hn Hu.
  destruct (SpecPath.normalize cwd path) as [|d segs]; [discriminate |].
  cbn [SpecPath.nested_under] in Hu.
  apply andb_true_iff in Hu. destruct Hu as [Hd _].
  apply String.eqb_eq in Hd. subst d.
  destruct (split_on_head _ _ _ _ Hn) as [[? _] | [s' [-> Hs']]]; [discriminate |].
  destruct (split_on_begins _ _ _ _ Hs') as [tail ->].
  exists tail. reflexivity.
Qed.

(** C3, as amended: among the paths that are equal to or nested under
    /data after normalisation, B1 accepts exactly those that begin with
    "/data" as written and refuses the others with 403.  It accepts every
    such path that is written in normal form (absolute, no empty, "." or
    ".." segment), the root itself included; it refuses every relative
    one. *)
Theorem B1_on_paths_under_root
    (cwd : list string) (filepath : string) (w : World) :
  SpecPath.under_root cwd filepath = true ->
  (begins_with "/data" filepath <-> B1 filepath w = (inr true, w)) /\
  (~ begins_with "/data" filepath <-> B1 filepath w = B1_rejection filepath w) /\
  (written_normalised cwd filepath -> B1 filepath w = (inr true, w)) /\
  (~ begins_with "/" filepath -> B1 filepath w = B1_rejection filepath w).
Proof.
  intros Hu.
  assert (Ha : begins_with "/data" filepath <-> B1 filepath w = (inr true, w)).
  { split; intros H.
    - apply B1_accept, startswith_spec, H.
    - apply startswith_spec.
      destruct (B1_cases filepath w) as [[Hp _] | [_ Hr]]; [exact Hp |].
      rewrite Hr in H. discriminate. }
  split; [exact Ha |]. split; [| split].
  - split; intros H.
    + apply B1_reject, startswith_false, H.
    + apply startswith_false.
      destruct (B1_cases filepath w) as [[_ Hacc] | [Hp _]]; [| exact Hp].
      rewrite Hacc in H. discriminate.
  - intros Hn. apply Ha. exact (written_normalised_under_root _ _ Hn Hu).
  - intros H. apply B1_reject, startswith_false, relative_not_under_prefix, H.
Qed.

Lemma B1_on_paths_under_root_witness :
  (begins_with "/data" "/data/out.csv" <->
   B1 "/data/out.csv" empty_world = (inr true, empty_world)) /\
  (~ begins_with "/data" "/data/out.csv" <->
   B1 "/data/out.csv" empty_world = B1_rejection "/data/out.csv" empty_world) /\
  (written_normalised ["srv"; "app"] "/data/out.csv" ->
   B1 "/data/out.csv" empty_world = (inr true, empty_world)) /\
  (~ begins_with "/" "/data/out.csv" ->
   B1 "/data/out.csv" empty_world = B1_rejection "/data/out.csv" empty_world).
Proof.
  apply (B1_on_paths_under_root ["srv"; "app"] "/data/out.csv" empty_world).
  reflexivity.
Defined.

(** The root itself and a file below it are written in normal form. *)
Example root_is_written_normalised :
  written_normalised ["srv"; "app"] "/data" /\
  written_normalised ["srv"; "app"] "/data/reports/out.csv" /\
  ~ written_normalised ["srv"; "app"] "/data/../etc/passwd" /\
  ~ written_normalised ["data"] "out.csv".
Proof. repeat split; (reflexivity || discriminate). Qed.

(** C4: B1 accepts a path exactly when the string begins with "/data":
    "/database/secret" and "/data/../etc/passwd" are accepted, and every
    string that does not begin with "/data", every relative path among
    them, is refused with the 403 HTTPException. *)
Theorem B1_is_a_prefix_test (filepath : string) (w : World) :
  (begins_with "/data" filepath <-> B1 filepath w = (inr true, w)) /\
  (~ begins_with "/data" filepath <-> B1 filepath w = B1_rejection filepath w) /\
  B1 "/database/secret" w = (inr true, w) /\
  B1 "/data/../etc/passwd" w = (inr true, w) /\
  (forall relative, ~ begins_with "/" relative ->
                    B1 relative w = B1_rejection relative w).
Proof.
  repeat split; try reflexivity.
  - intros H. apply B1_accept, startswith_spec, H.
  - intros H. apply startswith_spec.
    destruct (B1_cases filepath w) as [[Hp _] | [_ Hr]]; [exact Hp |].
    rewrite Hr in H. discriminate.
  - intros H. apply B1_reject, startswith_false, H.
  - intros H. apply startswith_false.
    destruct (B1_cases filepath w) as [[_ Ha] | [Hp _]]; [| exact Hp].
    rewrite Ha in H. discriminate.
  - intros relative H.
    apply B1_reject, startswith_false, relative_not_under_prefix, H.
Qed.

Lemma B2_reject filepath mode w :
  str_in "w" mode || str_in "x" mode || str_in "a" mode = true ->
  B2 filepath mode w = B2_rejection filepath w.
Proof. intros H. unfold B2. rewrite H. reflexivity. Qed.

Lemma B2_accept filepath mode w :
  str_in "w" mode || str_in "x" mode || str_in "a" mode = false ->
  B2 filepath mode w = (inr true, w).
Proof. intros H. unfold B2. rewrite H. reflexivity. Qed.

(** What B2 refuses: every mode string that contains one of the letters w,
    x or a, in particular write ("w"), append ("a") and create-exclusive
    ("x"), with PermissionError and a log record naming the file path; it
    lets the read mode "r" and its binary and text variants through. *)
Lemma B2_refuses_writing_modes (filepath mode : string) (w : World) :
  (occurs_in "w" mode \/ occurs_in "x" mode \/ occurs_in "a" mode ->
   B2 filepath mode w =
     (inl (PermissionError "Modifications to files are not allowed."),
      {| events := events w ++ [LogError ("Unauthorized modification attempt: " +:+ filepath)];
         files := files w |})) /\
  (B2 filepath mode w = (inr true, w) ->
   ~ occurs_in "w" mode /\ ~ occurs_in "x" mode /\ ~ occurs_in "a" mode) /\
  B2 filepath "w" w = B2_rejection filepath w /\
  B2 filepath "a" w = B2_rejection filepath w /\
  B2 filepath "x" w = B2_rejection filepath w /\
  B2 filepath "r" w = (inr true, w) /\
  B2 filepath "rb" w = (inr true, w) /\
  B2 filepath "rt" w = (inr true, w).
Proof.
  split; [| split; [| repeat split; reflexivity]].
  - intros H. rewrite <- !str_in_spec in H.
    apply B2_reject. rewrite !orb_true_iff. tauto.
  - intros H.
    destruct (str_in "w" mode || str_in "x" mode || str_in "a" mode) eqn:E.
    + rewrite (B2_reject _ _ _ E) in H. discriminate.
    + rewrite !orb_false_iff in E. destruct E as [[Ew Ex] Ea].
      rewrite <- !str_in_spec. rewrite Ew, Ex, Ea. repeat split; discriminate.
Qed.

(** C2, the code at the failing input: the mode "r+" opens a file for
    reading and writing, yet B2 returns True for it, while it refuses "w",
    "a" and "x": "r+" holds none of the three letters B2 looks for. *)
Theorem B2_lets_the_update_mode_through :
  B2 "/data/notes.txt" "r+" empty_world = (inr true, empty_world) /\
  B2 "/data/notes.txt" "w" empty_world = B2_rejection "/data/notes.txt" empty_world /\
  B2 "/data/notes.txt" "a" empty_world = B2_rejection "/data/notes.txt" empty_world /\
  B2 "/data/notes.txt" "x" empty_world = B2_rejection "/data/notes.txt" empty_world /\
  B2 "/data/notes.txt" "r" empty_world = (inr true, empty_world).
Proof. repeat split; reflexivity. Qed.

(** C10: the outcome of B1 and of B2 is a function of the arguments alone:
    it is the same in every world, so also when the call is repeated or
    follows other guard calls; a guard call leaves the files and the record
    of operations untouched and at most appends log records. *)
Theorem guards_are_stateless (filepath mode : string) (w1 w2 : World) :
  fst (B1 filepath w1) = fst (B1 filepath w2) /\
  fst (B2 filepath mode w1) = fst (B2 filepath mode w2) /\
  fst (B1 filepath (snd (B1 filepath w1))) = fst (B1 filepath w1) /\
  fst (B2 filepath mode (snd (B2 filepath mode w1))) = fst (B2 filepath mode w1) /\
  files (snd (B1 filepath w1)) = files w1 /\
  files (snd (B2 filepath mode w1)) = files w1 /\
  calls (events (snd (B1 filepath w1))) = calls (events w1) /\
  calls (events (snd (B2 filepath mode w1))) = calls (events w1) /\
  (exists log, events (snd (B1 filepath w1)) = events w1 ++ log /\
               forall e, In e log -> exists msg, e = LogError msg) /\
  (exists log, events (snd (B2 filepath mode w1)) = events w1 ++ log /\
               forall e, In e log -> exists msg, e = LogError msg).
Proof.
  unfold B1, B2.
  destruct (startswith filepath "/data");
    destruct (str_in "w" mode || str_in "x" mode || str_in "a" mode);
    cbn; rewrite ?calls_app, ?app_nil_r; cbn; rewrite ?app_nil_r;
    repeat split; auto;
    try (exists []; rewrite app_nil_r; split; [reflexivity | intros e []]);
    (eexists; split; [reflexivity |]; intros e [<- | []]; eauto).
Qed.

(** ** Module initialisation *)

(** C9: when the environment does not set AIPROXY_TOKEN, running the module
    body raises ValueError and yields no namespace: the import fails before
    [app] or any of the functions is bound. *)
Theorem import_fails_without_token (environ : gmap string string) :
  environ !! "AIPROXY_TOKEN" = None ->
  module_init environ = inl token_missing.
Proof.
  intros H. unfold module_init, environ_get.
  rewrite lookup_insert_eq, H. reflexivity.
Qed.

Lemma import_fails_without_token_witness :
  module_init {["HOME" := "/root"]} = inl token_missing.
Proof.
  apply (import_fails_without_token {["HOME" := "/root"]}). reflexivity.
Defined.

(** X15: a token set to the empty string is refused like a missing one:
    the module body raises the same ValueError. *)
Lemma import_fails_with_empty_token (environ : gmap string string) :
  environ !! "AIPROXY_TOKEN" = Some "" ->
  module_init environ = inl token_missing.
Proof.
  intros H. unfold module_init, environ_get.
  rewrite lookup_insert_eq, H. reflexivity.
Qed.

(** A non-empty token lets the module bind every handler. *)
Lemma import_succeeds_with_token (environ : gmap string string) c token :
  environ !! "AIPROXY_TOKEN" = Some (String c token) ->
  exists ns, module_init environ = inr ns /\
             ns !! "AIPROXY_TOKEN" = Some (PyStr (String c token)) /\
             ns !! "app" = Some PyApp /\
             Forall (fun name => ns !! name = Some (PyFunction name)) handler_names.
Proof.
  intros H. unfold module_init, environ_get.
  rewrite lookup_insert_eq, H. cbn [default py_truthy truthy negb].
  eexists. split; [reflexivity |].
  unfold handler_names, define. cbn [fold_left].
  repeat split; repeat constructor; simplify_map_eq; reflexivity.
Qed.

(** ** The task wrappers *)

Section Surfacing.

Variable ext : Externals.

Lemma faithful_ret {A} (a : A) (Q : A -> Prop) : Q a -> faithful (ret a) Q.
Proof.
  intros H w. exists []. cbn. rewrite app_nil_r. auto.
Qed.

Lemma faithful_skip : faithful (ret tt) (fun _ => True).
Proof. apply faithful_ret. exact I. Qed.

Lemma faithful_bind {A B} (c : M A) (k : A -> M B) Q1 Q :
  faithful c Q1 -> (forall a, faithful (k a) Q) -> faithful (bind c k) Q.
Proof.
  intros Hc Hk w. unfold bind.
  destruct (Hc w) as [evs1 [E1 P1]].
  destruct (c w) as [[e | a] w1]; cbn in *.
  - exists evs1. auto.
  - destruct P1 as [_ F1].
    destruct (Hk a w1) as [evs2 [E2 P2]].
    exists (evs1 ++ evs2). rewrite E2, E1, app_assoc. split; [reflexivity |].
    rewrite failures_app, F1. exact P2.
Qed.

Lemma faithful_call {A} (op : Op) (answer : World -> string + A) :
  faithful (call op answer) (fun _ => True).
Proof.
  intros w. unfold call. destruct (answer w) as [msg | a]; cbn.
  - exists [Called op (Some msg)]. eauto.
  - exists [Called op None]. auto.
Qed.

Lemma faithful_ask {A} (op : Op) (value : World -> string + A) :
  faithful (ask ext op value) (fun _ => True).
Proof. apply faithful_call. Qed.

Lemma faithful_set_file path text :
  faithful (modify (set_file path text)) (fun _ => True).
Proof. intros w. exists []. cbn. rewrite app_nil_r. auto. Qed.

Lemma faithful_logging_info msg : faithful (logging_info msg) (fun _ => True).
Proof. intros w. exists [LogInfo msg]. cbn. auto. Qed.

Lemma faithful_db_op {A} conn (op : Op) (value : World -> string + A) :
  faithful (db_op ext conn op value) (fun _ => True).
Proof.
  unfold db_op. eapply faithful_bind; [apply faithful_ask |]. intros a.
  eapply faithful_bind with (Q1 := fun _ => True).
  - intros w. exists []. cbn. rewrite app_nil_r. auto.
  - intros _. apply faithful_ret. exact I.
Qed.

Lemma faithful_if {A} (b : bool) (c1 c2 : M A) Q :
  faithful c1 Q -> faithful c2 Q -> faithful (if b then c1 else c2) Q.
Proof. destruct b; auto. Qed.

Create HintDb faithful.
Hint Resolve faithful_ret faithful_skip faithful_call faithful_ask faithful_db_op
  faithful_set_file
  faithful_logging_info faithful_if : faithful.
Hint Extern 2 (faithful (bind _ _) _) =>
  eapply faithful_bind; [| intro] : faithful.
Hint Unfold requests_get raise_for_status open_w file_write open_r file_read
  subprocess_run sqlite3_connect duckdb_connect conn_cursor cursor_execute
  cursor_fetchall conn_close markdown_markdown pd_read_csv df_filter : faithful.

Ltac faithful_body := autounfold with faithful; eauto 30 with faithful.

Lemma faithful_B3_try url save_path : faithful (B3_try ext url save_path) (eq true).
Proof. unfold B3_try. faithful_body. Qed.

Lemma faithful_B4_try repo_url commit_message :
  faithful (B4_try ext repo_url commit_message) (eq true).
Proof. unfold B4_try. faithful_body. Qed.

Lemma faithful_B5_try db_path query output_filename :
  faithful (B5_try ext db_path query output_filename) (eq true).
Proof. unfold B5_try. faithful_body. Qed.

Lemma faithful_B6_try url output_filename :
  faithful (B6_try ext url output_filename) (eq true).
Proof. unfold B6_try. faithful_body. Qed.

Lemma faithful_B7_try image_path output_path resize :
  faithful (B7_try ext image_path output_path resize) (eq true).
Proof. unfold B7_try. destruct resize; faithful_body. Qed.

Lemma faithful_B8_try audio_path : faithful (B8_try audio_path) (eq true).
Proof. unfold B8_try. faithful_body. Qed.

Lemma faithful_B9_try md_path output_path :
  faithful (B9_try ext md_path output_path) (eq true).
Proof. unfold B9_try. faithful_body. Qed.

Lemma faithful_B10_try csv_path filter_column filter_value :
  faithful (B10_try ext csv_path filter_column filter_value) (eq true).
Proof. unfold B10_try. faithful_body. Qed.

Lemma try_except_500_handled (body : M bool) (what : string) :
  faithful body (eq true) ->
  handled (try_except body (except_500 ext what)).
Proof.
  intros Hb w. unfold try_except.
  destruct (Hb w) as [evs [E P]].
  destruct (body w) as [[e | v] w1]; cbn in *.
  - destruct P as [msg [-> F]]. cbn.
    exists (evs ++ [LogError (what +:+ msg)]).
    rewrite E, app_assoc. split; [reflexivity |].
    exists msg. rewrite failures_app, F. auto.
  - exists evs. destruct P as [<- F]. auto.
Qed.

Lemma guarded_surfaces (p : string) (c : M bool) :
  handled c ->
  surfaces [p] (ok <- B1 p ;; if negb ok then deny else c).
Proof.
  intros Hc w. unfold bind.
  destruct (B1_cases p w) as [[Hp ->] | [Hp ->]]; cbn.
  - destruct (Hc w) as [evs [E P]]. exists evs.
    split; [exact E | split; [intros _; exact P |]].
    intros H. exfalso. apply H. repeat constructor. apply startswith_spec, Hp.
  - eexists. split; [reflexivity |]. split; [| auto].
    intros H. inversion H as [| ? ? H1 _]; subst.
    apply startswith_spec in H1. congruence.
Qed.

Lemma either_denied_cases (a b : string) (w : World) :
  (Forall (begins_with "/data") [a; b] /\
   either_denied a b w = (inr false, w)) \/
  (~ Forall (begins_with "/data") [a; b] /\
   exists p, either_denied a b w = B1_rejection p w).
Proof.
  unfold either_denied, bind.
  destruct (B1_cases a w) as [[Ha ->] | [Ha ->]]; cbn.
  - destruct (B1_cases b w) as [[Hb ->] | [Hb ->]]; cbn.
    + left. split; [| reflexivity].
      repeat constructor; apply startswith_spec; assumption.
    + right. split; [| eauto].
      intros H. inversion H as [| ? ? _ H2]; subst.
      inversion H2 as [| ? ? H3 _]; subst.
      apply startswith_spec in H3. congruence.
  - right. split; [| eauto].
    intros H. inversion H as [| ? ? H1 _]; subst.
    apply startswith_spec in H1. congruence.
Qed.

Lemma guarded_pair_surfaces (a b : string) (c : M bool) :
  handled c ->
  surfaces [a; b] (denied <- either_denied a b ;; if denied then deny else c).
Proof.
  intros Hc w. unfold bind.
  destruct (either_denied_cases a b w) as [[Hab ->] | [Hab [p ->]]]; cbn.
  - destruct (Hc w) as [evs [E P]]. exists evs.
    split; [exact E | split; [intros _; exact P | tauto]].
  - eexists. split; [reflexivity |]. split; [tauto | auto].
Qed.

(** C6: for each wrapper B3-B10 (B7 as the source text has it), a call
    ends in one of three ways.  If some path handed to B1 does not begin
    with "/data", the caller gets the 403 HTTPException and no operation
    was attempted.  Otherwise, if an operation raised, the caller gets the
    500 HTTPException whose detail is that operation's message, and it is
    the only operation that raised.  Otherwise the caller gets True and no
    operation raised.  No failure is dropped on the way. *)
Theorem every_failure_surfaces :
  (forall url save_path, surfaces [save_path] (B3 ext url save_path)) /\
  (forall repo_url commit_message,
      surfaces [repo_path] (B4 ext repo_url commit_message)) /\
  (forall db_path query output_filename,
      surfaces [db_path; output_filename]
               (B5 ext db_path query output_filename)) /\
  (forall url output_filename,
      surfaces [output_filename] (B6 ext url output_filename)) /\
  (forall image_path output_path resize,
      surfaces [image_path; output_path]
               (B7 ext image_path output_path resize)) /\
  (forall audio_path, surfaces [audio_path] (B8 ext audio_path)) /\
  (forall md_path output_path,
      surfaces [md_path; output_path] (B9 ext md_path output_path)) /\
  (forall csv_path filter_column filter_value,
      surfaces [csv_path] (B10 ext csv_path filter_column filter_value)).
Proof.
  repeat split; intros;
    first [apply guarded_surfaces | apply guarded_pair_surfaces];
    apply try_except_500_handled.
  - apply faithful_B3_try.
  - apply faithful_B4_try.
  - apply faithful_B5_try.
  - apply faithful_B6_try.
  - apply faithful_B7_try.
  - apply faithful_B8_try.
  - apply faithful_B9_try.
  - apply faithful_B10_try.
Qed.

End Surfacing.

(** ** B5: the choice of the database engine *)

Lemma backends_app ops1 ops2 : backends (ops1 ++ ops2) = backends ops1 ++ backends ops2.
Proof.
  induction ops1 as [|op ops1 IH]; [reflexivity |].
  destruct op; cbn; rewrite ?IH; reflexivity.
Qed.

Section Dispatch.

Variable ext : Externals.

Lemma quiet_ret {A} (a : A) : quiet (ret a).
Proof. intros w. exists []. cbn. rewrite app_nil_r. auto. Qed.

Lemma quiet_raise {A} (e : exn) : quiet (@raise A e).
Proof. intros w. exists []. cbn. rewrite app_nil_r. auto. Qed.

Lemma quiet_bind {A B} (c : M A) (k : A -> M B) :
  quiet c -> (forall a, quiet (k a)) -> quiet (bind c k).
Proof.
  intros Hc Hk w. unfold bind.
  destruct (Hc w) as [evs1 [E1 Q1]].
  destruct (c w) as [[e | a] w1]; cbn in *; [eauto |].
  destruct (Hk a w1) as [evs2 [E2 Q2]].
  exists (evs1 ++ evs2). rewrite E2, E1, app_assoc. split; [reflexivity |].
  rewrite calls_app, backends_app, Q1, Q2. reflexivity.
Qed.

Lemma quiet_call {A} (op : Op) (answer : World -> string + A) :
  backends [op] = [] -> quiet (call op answer).
Proof.
  intros H w. unfold call.
  destruct (answer w); cbn; eexists; (split; [reflexivity | exact H]).
Qed.

Lemma quiet_ask {A} (op : Op) (value : World -> string + A) :
  backends [op] = [] -> quiet (ask ext op value).
Proof. apply quiet_call. Qed.

Lemma quiet_set_file path text : quiet (modify (set_file path text)).
Proof. intros w. exists []. cbn. rewrite app_nil_r. auto. Qed.

Lemma quiet_db_rewrite conn op : quiet (modify (db_rewrite ext conn op)).
Proof. intros w. exists []. cbn. rewrite app_nil_r. auto. Qed.

Lemma quiet_db_op {A} conn (op : Op) (value : World -> string + A) :
  backends [op] = [] -> quiet (db_op ext conn op value).
Proof.
  intros H. unfold db_op. apply quiet_bind; [apply quiet_ask, H |]. intros a.
  apply quiet_bind; [apply quiet_db_rewrite | intros _; apply quiet_ret].
Qed.

Lemma quiet_logging_info msg : quiet (logging_info msg).
Proof. intros w. exists [LogInfo msg]. cbn. auto. Qed.

Lemma quiet_logging_error msg : quiet (logging_error msg).
Proof. intros w. exists [LogError msg]. cbn. auto. Qed.

Lemma quiet_except_500 what e : quiet (except_500 ext what e).
Proof.
  unfold except_500. apply quiet_bind; [apply quiet_logging_error |].
  intros _. apply quiet_raise.
Qed.

Lemma starts_with_bind {A B} (op : Op) (value : World -> string + A) (k : A -> M B) :
  (forall a, quiet (k a)) -> starts_with op (bind (ask ext op value) k).
Proof.
  intros Hk w. unfold bind, ask, call.
  destruct (match fails ext w op with Some msg => inl msg | None => value w end)
    as [msg | a]; cbn.
  - exists (Some msg), []. auto.
  - destruct (Hk a (add_event (Called op None) w)) as [evs [E Q]].
    exists None, evs. rewrite E. cbn. rewrite <- app_assoc. auto.
Qed.

Lemma starts_with_try {A} (op : Op) (body : M A) (handler : exn -> M A) :
  starts_with op body -> (forall e, quiet (handler e)) ->
  starts_with op (try_except body handler).
Proof.
  intros Hb Hh w. unfold try_except.
  destruct (Hb w) as [raised [rest [E Q]]].
  destruct (body w) as [[e | a] w1]; cbn in *; [| eauto].
  destruct (Hh e w1) as [evs [E2 Q2]].
  exists raised, (rest ++ evs). rewrite E2, E, <- app_assoc. cbn.
  split; [reflexivity |].
  rewrite calls_app, backends_app, Q, Q2. reflexivity.
Qed.

Lemma starts_with_then {A B} (op : Op) (c : M A) (k : A -> M B) :
  starts_with op c -> (forall a, quiet (k a)) -> starts_with op (bind c k).
Proof.
  intros Hc Hk w. unfold bind.
  destruct (Hc w) as [raised [rest [E Q]]].
  destruct (c w) as [[e | a] w1]; cbn in *; [eauto |].
  destruct (Hk a w1) as [evs [E2 Q2]].
  exists raised, (rest ++ evs). rewrite E2, E, <- app_assoc. cbn.
  split; [reflexivity |].
  rewrite calls_app, backends_app, Q, Q2. reflexivity.
Qed.

Lemma starts_with_db_op {A} conn (op : Op) (value : World -> string + A) :
  starts_with op (db_op ext conn op value).
Proof.
  unfold db_op. apply starts_with_bind. intros a.
  apply quiet_bind; [apply quiet_db_rewrite | intros _; apply quiet_ret].
Qed.

Lemma B5_try_connects_first db_path query output_filename :
  starts_with (if endswith db_path ".db"
               then SqliteConnect db_path else DuckdbConnect db_path)
              (B5_try ext db_path query output_filename).
Proof.
  unfold B5_try, db_type.
  destruct (endswith db_path ".db"); cbn [String.eqb Ascii.eqb Bool.eqb];
    unfold sqlite3_connect, duckdb_connect;
    (apply starts_with_then; [apply starts_with_db_op |]); intros conn;
    unfold conn_cursor, cursor_execute, cursor_fetchall, conn_close, open_w,
      file_write;
    repeat first
      [ apply quiet_ret | apply quiet_logging_info | apply quiet_set_file
      | apply quiet_ask; reflexivity
      | apply quiet_db_op; reflexivity
      | apply quiet_bind; [| intro] ].
Qed.

End Dispatch.

(** C8: once both paths have passed B1, the first thing B5 does is connect
    to [db_path], through sqlite3 exactly when [db_path] ends with ".db" and
    through duckdb exactly when it does not; it connects nowhere else. *)
Theorem B5_engine_follows_the_extension
    (ext : Externals) (db_path query output_filename : string) (w : World) :
  begins_with "/data" db_path ->
  begins_with "/data" output_filename ->
  exists evs,
    events (snd (B5 ext db_path query output_filename w)) = events w ++ evs /\
    (ends_with ".db" db_path <-> backends (calls evs) = [Sqlite]) /\
    (~ ends_with ".db" db_path <-> backends (calls evs) = [Duckdb]) /\
    (exists op raised rest,
        evs = Called op raised :: rest /\
        (op = SqliteConnect db_path \/ op = DuckdbConnect db_path)).
Proof.
  intros Hdb Hout. unfold B5, bind.
  destruct (either_denied_cases db_path output_filename w) as [[_ ->] | [H _]];
    [| exfalso; apply H; repeat constructor; assumption].
  cbn [negb].
  destruct (starts_with_try _ _ (except_500 ext "Failed to execute query: ")
              (B5_try_connects_first ext db_path query output_filename)
              (quiet_except_500 ext _) w) as [raised [rest [E Q]]].
  eexists. split; [exact E |].
  rewrite <- endswith_false, <- endswith_spec.
  destruct (endswith db_path ".db"); cbn; rewrite Q;
    (split; [split; congruence | split; [split; congruence | eauto 6]]).
Qed.

Lemma B5_engine_follows_the_extension_witness :
  exists evs,
    events (snd (B5 ext_ok "/data/sales.db" "SELECT 1" "/data/out.txt" empty_world))
      = events empty_world ++ evs /\
    (ends_with ".db" "/data/sales.db" <-> backends (calls evs) = [Sqlite]) /\
    (~ ends_with ".db" "/data/sales.db" <-> backends (calls evs) = [Duckdb]) /\
    (exists op raised rest,
        evs = Called op raised :: rest /\
        (op = SqliteConnect "/data/sales.db" \/ op = DuckdbConnect "/data/sales.db")).
Proof.
  apply (B5_engine_follows_the_extension
           ext_ok "/data/sales.db" "SELECT 1" "/data/out.txt" empty_world).
  - apply startswith_spec. reflexivity.
  - apply startswith_spec. reflexivity.
Defined.

(** The two engines on concrete paths. *)
Example B5_uses_sqlite_for_db :
  calls (events (snd (B5 ext_ok "/data/sales.db" "SELECT 1" "/data/out.txt" empty_world)))
  = [SqliteConnect "/data/sales.db"; ConnCursor; CursorExecute "SELECT 1";
     CursorFetchall; ConnClose; OpenFile "/data/out.txt" "w";
     FileWrite "/data/out.txt" "[(1,)]"].
Proof. reflexivity. Qed.

Example B5_uses_duckdb_otherwise :
  calls (events (snd (B5 ext_ok "/data/sales.duckdb" "SELECT 1" "/data/out.txt" empty_world)))
  = [DuckdbConnect "/data/sales.duckdb"; ConnCursor; CursorExecute "SELECT 1";
     CursorFetchall; ConnClose; OpenFile "/data/out.txt" "w";
     FileWrite "/data/out.txt" "[(1,)]"].
Proof. reflexivity. Qed.

(** ** B3: the guard comes first *)

(** The guard runs first: when B1 refuses the save path, B3 ends with the
    403 HTTPException and has done nothing but write the guard's log
    record: no operation was asked of the outside world, so no HTTP
    request, and no file changed. *)
Lemma B3_refuses_before_fetching
    (ext : Externals) (url save_path : string) (w : World) :
  ~ begins_with "/data" save_path ->
  B3 ext url save_path w =
    (inl (HTTPException 403 "Access outside /data is not allowed."),
     {| events := events w ++ [LogError ("Unauthorized access attempt: " +:+ save_path)];
        files := files w |}) /\
  calls (events (snd (B3 ext url save_path w))) = calls (events w) /\
  files (snd (B3 ext url save_path w)) = files w.
Proof.
  intros H. apply startswith_false in H.
  unfold B3, bind. rewrite (B1_reject _ _ H). cbn.
  rewrite calls_app, app_nil_r. auto.
Qed.

(** C5, the code at the failing input: the save path "/database/dump" lies
    outside /data, yet B1 lets it through, and B3 sends the request and
    writes the file instead of ending with 403. *)
Lemma B3_fetches_for_a_path_outside_root :
  SpecPath.under_root [] "/database/dump" = false /\
  fst (B3 ext_ok "http://example.org/" "/database/dump" empty_world) = inr true /\
  calls (events (snd (B3 ext_ok "http://example.org/" "/database/dump" empty_world)))
    = [HttpGet "http://example.org/"; RaiseForStatus;
       OpenFile "/database/dump" "w"; FileWrite "/database/dump" "payload"] /\
  files (snd (B3 ext_ok "http://example.org/" "/database/dump" empty_world))
    !! "/database/dump" = Some "payload".
Proof. repeat split; reflexivity. Qed.

(** ** B10: what becomes of the filtered rows *)

Lemma B10_try_returns_True (ext : Externals) csv_path filter_column filter_value w :
  files (snd (B10_try ext csv_path filter_column filter_value w)) = files w /\
  (forall v, fst (B10_try ext csv_path filter_column filter_value w) = inr v ->
             v = true).
Proof.
  unfold B10_try, pd_read_csv, df_filter, ask, call, bind, logging_info, ret.
  destruct (fails ext w (ReadCsv csv_path)); cbn; [split; [auto | discriminate] |].
  destruct (files w !! csv_path); cbn; [| split; [auto | discriminate]].
  destruct (frame_filter _ _ _); cbn; split; auto; try discriminate.
  intros v [= <-]. reflexivity.
Qed.

(** X14: whatever the CSV holds and whatever the filter selects, B10
    returns nothing but True and leaves every file as it was. *)
Lemma B10_returns_only_True (ext : Externals) csv_path filter_column filter_value w :
  files (snd (B10 ext csv_path filter_column filter_value w)) = files w /\
  (forall v, fst (B10 ext csv_path filter_column filter_value w) = inr v ->
             v = true).
Proof.
  unfold B10, bind.
  destruct (B1_cases csv_path w) as [[_ ->] | [_ ->]]; cbn;
    [| split; [auto | discriminate]].
  unfold try_except.
  destruct (B10_try_returns_True ext csv_path filter_column filter_value w)
    as [F V].
  destruct (B10_try ext csv_path filter_column filter_value w) as [[e | v] w1];
    cbn in *; [split; [auto | discriminate] |].
  split; [exact F | intros v' [= <-]; auto].
Qed.

(** C7, the code at a concrete input: the file /data/people.csv holds one
    row whose city is Oslo, the filter selects it, and B10 returns True,
    the same value it returns for a filter that selects nothing; the
    selected row reaches neither the caller nor any file. *)
Theorem B10_discards_the_filtered_rows :
  frame_filter (parse_csv ext_ok "") "city" "Oslo"
    = inr (mkFrame ["name"; "city"] [[CStr "Ann"; CStr "Oslo"]]) /\
  frame_filter (parse_csv ext_ok "") "city" "Lima"
    = inr (mkFrame ["name"; "city"] []) /\
  B10 ext_ok "/data/people.csv" "city" "Oslo" csv_world =
    (inr true,
     {| events := [Called (ReadCsv "/data/people.csv") None;
                   Called (FrameFilter "city" "Oslo") None;
                   LogInfo "CSV filtered and returned JSON data"];
        files := files csv_world |}) /\
  fst (B10 ext_ok "/data/people.csv" "city" "Lima" csv_world) = inr true.
Proof. repeat split; reflexivity. Qed.

(** * Further properties of the code *)

(** ** Rules for reading off the outcome of a computation *)

Section Outcome.

Variable ext : Externals.

Lemma post_ret {A} (a : A) w (R : exn + A -> World -> Prop) :
  R (inr a) w -> post (ret a) w R.
Proof. auto. Qed.

Lemma post_raise {A} (e : exn) w (R : exn + A -> World -> Prop) :
  R (inl e) w -> post (raise e) w R.
Proof. auto. Qed.

Lemma post_bind {A B} (c : M A) (k : A -> M B) w (R : exn + B -> World -> Prop) :
  post c w (fun r w1 => match r with
                        | inl e => R (inl e) w1
                        | inr a => post (k a) w1 R
                        end) ->
  post (bind c k) w R.
Proof.
  unfold post, bind. destruct (c w) as [[e | a] w1]; auto.
Qed.

Lemma post_try {A} (body : M A) (handler : exn -> M A) w
      (R : exn + A -> World -> Prop) :
  post body w (fun r w1 => match r with
                           | inl e => post (handler e) w1 R
                           | inr a => R (inr a) w1
                           end) ->
  post (try_except body handler) w R.
Proof.
  unfold post, try_except. destruct (body w) as [[e | a] w1]; auto.
Qed.

Lemma post_call {A} (op : Op) (answer : World -> string + A) w
      (R : exn + A -> World -> Prop) :
  (forall msg, answer w = inl msg ->
               R (inl (LibraryError msg)) (add_event (Called op (Some msg)) w)) ->
  (forall a, answer w = inr a -> R (inr a) (add_event (Called op None) w)) ->
  post (call op answer) w R.
Proof.
  intros Hl Hr. unfold post, call. destruct (answer w); cbn; auto.
Qed.

Lemma post_ask {A} (op : Op) (value : World -> string + A) w
      (R : exn + A -> World -> Prop) :
  (forall msg, fails ext w op = Some msg ->
               R (inl (LibraryError msg)) (add_event (Called op (Some msg)) w)) ->
  (fails ext w op = None ->
   forall msg, value w = inl msg ->
               R (inl (LibraryError msg)) (add_event (Called op (Some msg)) w)) ->
  (fails ext w op = None ->
   forall a, value w = inr a -> R (inr a) (add_event (Called op None) w)) ->
  post (ask ext op value) w R.
Proof.
  intros Hf Hl Hr. unfold ask. apply post_call; destruct (fails ext w op); auto;
    intros ? [= <-]; auto.
Qed.

Lemma post_modify (f : World -> World) w (R : exn + unit -> World -> Prop) :
  R (inr tt) (f w) -> post (modify f) w R.
Proof. auto. Qed.

Lemma post_logging_info msg w (R : exn + unit -> World -> Prop) :
  R (inr tt) (add_event (LogInfo msg) w) -> post (logging_info msg) w R.
Proof. auto. Qed.

Lemma post_logging_error msg w (R : exn + unit -> World -> Prop) :
  R (inr tt) (add_event (LogError msg) w) -> post (logging_error msg) w R.
Proof. auto. Qed.

Lemma post_B1 p w (R : exn + bool -> World -> Prop) :
  (begins_with "/data" p -> R (inr true) w) ->
  (~ begins_with "/data" p ->
   R (inl (HTTPException 403 access_denied_detail))
     (add_event (LogError ("Unauthorized access attempt: " +:+ p)) w)) ->
  post (B1 p) w R.
Proof.
  intros Ha Hr. unfold post.
  destruct (B1_cases p w) as [[Hp ->] | [Hp ->]]; cbn.
  - apply Ha, startswith_spec, Hp.
  - apply Hr, startswith_false, Hp.
Qed.

End Outcome.

Ltac outcome_step ext :=
  lazymatch goal with
  | |- post (bind _ _) _ _ => apply post_bind
  | |- post (try_except _ _) _ _ => apply post_try
  | |- post (B1 _) _ _ => apply post_B1
  | |- post (ask _ _ _) _ _ => apply (post_ask ext)
  | |- post (call _ _) _ _ => apply post_call
  | |- post (modify _) _ _ => apply post_modify
  | |- post (logging_info _) _ _ => apply post_logging_info
  | |- post (logging_error _) _ _ => apply post_logging_error
  | |- post (ret _) _ _ => apply post_ret
  | |- post (raise _) _ _ => apply post_raise
  | |- post (if ?b then _ else _) _ _ => destruct b eqn:?
  end.

Ltac unfold_ops :=
  unfold except_500, requests_get, raise_for_status, open_w,
    file_write, open_r, file_read, subprocess_run, sqlite3_connect,
    duckdb_connect, conn_cursor, cursor_execute, cursor_fetchall, conn_close,
    markdown_markdown, pd_read_csv, df_filter, deny, either_denied, db_op.

Ltac outcome ext :=
  unfold_ops;
  repeat (cbn beta iota; intros;
          try match goal with
              | H : inr _ = inl _ |- _ => discriminate H
              | H : inl _ = inr _ |- _ => discriminate H
              | H : @eq (_ + _) (inr _) (inr _) |- _ => injection H as H; try subst
              | H : @eq (_ + _) (inl _) (inl _) |- _ => injection H as H; try subst
              end;
          cbn [negb];
          outcome_step ext).

Ltac finish_files :=
  cbn [files events add_event set_file db_rewrite]; rewrite ?insert_insert_eq.

Ltac finish_calls :=
  cbn [files events add_event set_file db_rewrite]; rewrite ?calls_app; cbn [calls];
  rewrite <- ?app_assoc; cbn [app].

(** ** B3 and B6: fetching and saving *)

(** X3: When B3 returns, it returns True, the file at the save path holds the
    body of the response and no other file has changed; the operations
    were, in this order, the request, the status check, the opening of the
    file for writing and the write. *)
Theorem B3_saves_the_fetched_body
    (ext : Externals) (url save_path : string) (w : World) (v : bool) :
  fst (B3 ext url save_path w) = inr v ->
  v = true /\
  files (snd (B3 ext url save_path w))
    = <[save_path := resp_text (http_response ext w url)]> (files w) /\
  calls (events (snd (B3 ext url save_path w)))
    = calls (events w) ++
      [HttpGet url; RaiseForStatus; OpenFile save_path "w";
       FileWrite save_path (resp_text (http_response ext w url))].
Proof.
  revert v.
  change (post (B3 ext url save_path) w
            (fun r w' => forall v, r = inr v ->
               v = true /\
               files w' = <[save_path := resp_text (http_response ext w url)]> (files w) /\
               calls (events w')
               = calls (events w) ++
                 [HttpGet url; RaiseForStatus; OpenFile save_path "w";
                  FileWrite save_path (resp_text (http_response ext w url))])).
  unfold B3, B3_try. outcome ext.
  intros v [= <-]. split; [reflexivity |]. split.
  - finish_files. reflexivity.
  - finish_calls. reflexivity.
Qed.

Lemma B3_saves_the_fetched_body_witness :
  true = true /\
  files (snd (B3 ext_ok "http://example.org/" "/data/page.html" empty_world))
    = <["/data/page.html" := "payload"]> ∅ /\
  calls (events (snd (B3 ext_ok "http://example.org/" "/data/page.html" empty_world)))
    = [HttpGet "http://example.org/"; RaiseForStatus;
       OpenFile "/data/page.html" "w"; FileWrite "/data/page.html" "payload"].
Proof.
  apply (B3_saves_the_fetched_body
           ext_ok "http://example.org/" "/data/page.html" empty_world true).
  reflexivity.
Defined.

(** X4: When the server answers with a 4xx or 5xx status, B3 reports it as the
    500 HTTPException carrying the HTTP error message; the file is not
    even opened, so every file is as it was. *)
Theorem B3_upstream_error_becomes_500
    (ext : Externals) (url save_path : string) (w : World) :
  begins_with "/data" save_path ->
  fails ext w (HttpGet url) = None ->
  400 <= resp_status (http_response ext w url) < 600 ->
  fst (B3 ext url save_path w)
    = inl (HTTPException 500 (http_error_message ext (http_response ext w url))) /\
  files (snd (B3 ext url save_path w)) = files w /\
  calls (events (snd (B3 ext url save_path w)))
    = calls (events w) ++ [HttpGet url; RaiseForStatus].
Proof.
  intros Hp Hget Hst.
  assert (Hb : (400 <=? resp_status (http_response ext w url)) &&
               (resp_status (http_response ext w url) <? 600) = true).
  { apply andb_true_iff. split; [apply Z.leb_le | apply Z.ltb_lt]; apply Hst. }
  change (post (B3 ext url save_path) w
            (fun r w' =>
               r = inl (HTTPException 500
                          (http_error_message ext (http_response ext w url))) /\
               files w' = files w /\
               calls (events w') = calls (events w) ++ [HttpGet url; RaiseForStatus])).
  unfold B3, B3_try. outcome ext; try congruence;
    match goal with
    | H : (if _ then _ else _) = _ |- _ => rewrite Hb in H; try discriminate H
    end.
  match goal with H : inl _ = inl _ |- _ => injection H as <- end. cbn [str_exn].
  split; [reflexivity |]. split; [reflexivity |]. finish_calls. reflexivity.
Qed.

Lemma B3_upstream_error_becomes_500_witness :
  fst (B3 ext_404 "http://example.org/x" "/data/x.html" csv_world)
    = inl (HTTPException 500 "404 Client Error") /\
  files (snd (B3 ext_404 "http://example.org/x" "/data/x.html" csv_world))
    = files csv_world /\
  calls (events (snd (B3 ext_404 "http://example.org/x" "/data/x.html" csv_world)))
    = [HttpGet "http://example.org/x"; RaiseForStatus].
Proof.
  apply (B3_upstream_error_becomes_500
           ext_404 "http://example.org/x" "/data/x.html" csv_world).
  - apply startswith_spec. reflexivity.
  - reflexivity.
  - cbn. split; [discriminate | reflexivity].
Defined.

(** Reading the new events off a world: every leaf of a run has the shape
    [events w ++ evs = events w ++ evs']. *)
Ltac new_events :=
  cbn [files events add_event set_file db_rewrite] in *;
  repeat match goal with
         | H : _ ++ _ = _ ++ _ |- _ =>
             rewrite <- ?app_assoc in H; cbn [app] in H;
             apply List.app_inv_head in H; subst
         end.

Ltac absurd_member :=
  repeat match goal with
         | H : In _ _ |- _ => cbn [In] in H
         | H : _ \/ _ |- _ => destruct H
         | H : False |- _ => destruct H
         | H : @eq Event _ _ |- _ => first [discriminate H | injection H as H; try subst]
         | H : @eq (option string) _ _ |- _ => first [discriminate H | injection H as H; try subst]
         | H : @eq Op _ _ |- _ => first [discriminate H | injection H as H; try subst]
         end.



(** X6: B6 is B3 under another name: on the same arguments and in the same
    world the two return the same value or raise the same exception, leave
    the same files and ask the same operations; only the texts they log
    differ. *)
Theorem B6_differs_from_B3_only_in_the_log
    (ext : Externals) (url path : string) (w : World) :
  same_but_for_the_log (B6 ext url path w) (B3 ext url path w).
Proof.
  unfold same_but_for_the_log, B6, B3, bind.
  destruct (B1_cases path w) as [[_ ->] | [_ ->]]; cbn [negb B1_rejection];
    [| auto].
  unfold try_except, B6_try, B3_try, bind.
  destruct (requests_get ext url w) as [[e | response] w1];
    [cbn; rewrite !calls_app; auto |].
  destruct (raise_for_status ext response w1) as [[e | []] w2];
    [cbn; rewrite !calls_app; auto |].
  destruct (open_w ext path w2) as [[e | []] w3];
    [cbn; rewrite !calls_app; auto |].
  destruct (file_write ext path (resp_text response) w3) as [[e | []] w4];
    cbn; rewrite !calls_app; auto.
Qed.

(** ** B4: cloning and committing *)

Lemma repo_path_is_admitted : begins_with "/data" repo_path.
Proof. exists "/repo". reflexivity. Qed.

(** X7: B4 guards a constant path, so it never answers 403: whatever its
    arguments, it starts by running git clone into /data/repo.  The commit
    is run only after the clone has succeeded; a failed clone is reported
    as the 500 HTTPException with the message of the clone. *)
Theorem B4_clones_then_commits
    (ext : Externals) (repo_url commit_message : string) (w : World) :
  (forall msg,
      fails ext w (git_clone repo_url) = Some msg ->
      fst (B4 ext repo_url commit_message w) = inl (HTTPException 500 msg) /\
      calls (events (snd (B4 ext repo_url commit_message w)))
        = calls (events w) ++ [git_clone repo_url]) /\
  (fails ext w (git_clone repo_url) = None ->
   calls (events (snd (B4 ext repo_url commit_message w)))
     = calls (events w) ++ [git_clone repo_url; git_commit commit_message]) /\
  fst (B4 ext repo_url commit_message w)
    <> inl (HTTPException 403 access_denied_detail).
Proof.
  change (post (B4 ext repo_url commit_message) w
            (fun r w' =>
               (forall msg,
                   fails ext w (git_clone repo_url) = Some msg ->
                   r = inl (HTTPException 500 msg) /\
                   calls (events w') = calls (events w) ++ [git_clone repo_url]) /\
               (fails ext w (git_clone repo_url) = None ->
                calls (events w')
                = calls (events w) ++ [git_clone repo_url; git_commit commit_message]) /\
               r <> inl (HTTPException 403 access_denied_detail))).
  unfold B4, B4_try, git_clone, git_commit. change repo_path with "/data/repo".
  outcome ext; intros;
    try match goal with
        | H : ~ begins_with "/data" "/data/repo" |- _ =>
            destruct (H repo_path_is_admitted)
        end;
    (split; [intros; try congruence | split; [intros; try congruence | discriminate]]).
  - match goal with
    | H1 : fails _ _ _ = Some ?a, H2 : fails _ _ _ = Some ?b |- _ =>
        assert (a = b) as -> by congruence
    end.
    split; [reflexivity | finish_calls; reflexivity].
  - finish_calls. reflexivity.
  - finish_calls. reflexivity.
Qed.

(** ** B5: querying *)





(** ** The guards of the two-path wrappers *)

(** X10: B5 and B9 check their paths from left to right and stop at the first
    one B1 refuses: the caller gets B1's 403 and the log names that path
    only, whatever the other path is. *)
Theorem two_path_guards_stop_at_the_first_refusal
    (ext : Externals) (first second arg : string) (w : World) :
  (~ begins_with "/data" first ->
   B5 ext first arg second w = B1_rejection first w /\
   B9 ext first second w = B1_rejection first w) /\
  (begins_with "/data" first -> ~ begins_with "/data" second ->
   B5 ext first arg second w = B1_rejection second w /\
   B9 ext first second w = B1_rejection second w).
Proof.
  split.
  - intros H1. apply startswith_false in H1.
    unfold B5, B9, either_denied, bind. rewrite (B1_reject _ _ H1). auto.
  - intros H1 H2. apply startswith_spec in H1. apply startswith_false in H2.
    unfold B5, B9, either_denied, bind.
    rewrite (B1_accept _ _ H1). cbn [negb]. rewrite (B1_reject _ _ H2). auto.
Qed.

(** ** B8: the transcription stub *)

(** X11: B8 transcribes nothing: for a path B1 admits it writes one info record
    and returns True, for any other path it ends with B1's 403; it asks
    nothing of the outside world, changes no file and never answers 500. *)
Theorem B8_only_logs (ext : Externals) (audio_path : string) (w : World) :
  (begins_with "/data" audio_path ->
   B8 ext audio_path w =
     (inr true,
      add_event (LogInfo ("Audio transcription requested for " +:+ audio_path)) w)) /\
  (~ begins_with "/data" audio_path ->
   B8 ext audio_path w = B1_rejection audio_path w) /\
  calls (events (snd (B8 ext audio_path w))) = calls (events w) /\
  files (snd (B8 ext audio_path w)) = files w /\
  (forall msg, fst (B8 ext audio_path w) <> inl (HTTPException 500 msg)).
Proof.
  unfold B8, B8_try, bind, try_except.
  destruct (B1_cases audio_path w) as [[Hp ->] | [Hp ->]]; cbn.
  - rewrite calls_app, app_nil_r. repeat split; auto; try discriminate.
    intros H. apply startswith_spec in Hp. contradiction.
  - rewrite calls_app, app_nil_r. repeat split; auto; try discriminate.
    intros H. apply startswith_spec in H. congruence.
Qed.

(** ** B9: Markdown to HTML *)

(** X12: When B9 returns, it returns True, the Markdown file existed, and the
    output file holds the HTML rendered from the text that file had when
    B9 was called; no other file has changed.  This holds also when both
    paths name the same file. *)
Theorem B9_saves_the_rendered_text
    (ext : Externals) (md_path output_path : string) (w : World) (v : bool) :
  fst (B9 ext md_path output_path w) = inr v ->
  v = true /\
  exists text,
    files w !! md_path = Some text /\
    files (snd (B9 ext md_path output_path w))
      = <[output_path := markdown_html ext text]> (files w).
Proof.
  revert v.
  change (post (B9 ext md_path output_path) w
            (fun r w' => forall v, r = inr v ->
               v = true /\
               exists text,
                 files w !! md_path = Some text /\
                 files w' = <[output_path := markdown_html ext text]> (files w))).
  unfold B9, B9_try. outcome ext. intros v [= <-]. split; [reflexivity |].
  cbn [files events add_event set_file] in *.
  destruct (files w !! md_path) as [text |] eqn:E; [| discriminate].
  exists text. split; [reflexivity |]. rewrite insert_insert_eq. reflexivity.
Qed.

Lemma B9_saves_the_rendered_text_witness :
  true = true /\
  exists text,
    files md_world !! "/data/readme.md" = Some text /\
    files (snd (B9 ext_ok "/data/readme.md" "/data/readme.md" md_world))
      = <["/data/readme.md" := markdown_html ext_ok text]> (files md_world).
Proof.
  apply (B9_saves_the_rendered_text
           ext_ok "/data/readme.md" "/data/readme.md" md_world true).
  reflexivity.
Defined.

(** X13: B9 reads before it writes: when opening the Markdown file raises, B9
    reports the 500 HTTPException with that message, has attempted nothing
    else and has left every file, the output file included, as it was. *)
Theorem B9_unreadable_input_changes_nothing
    (ext : Externals) (md_path output_path msg : string) (w : World)
    (evs : list Event) :
  events (snd (B9 ext md_path output_path w)) = events w ++ evs ->
  In (Called (OpenFile md_path "r") (Some msg)) evs ->
  fst (B9 ext md_path output_path w) = inl (HTTPException 500 msg) /\
  calls evs = [OpenFile md_path "r"] /\
  files (snd (B9 ext md_path output_path w)) = files w.
Proof.
  revert evs msg.
  change (post (B9 ext md_path output_path) w
            (fun r w' => forall evs msg,
               events w' = events w ++ evs ->
               In (Called (OpenFile md_path "r") (Some msg)) evs ->
               r = inl (HTTPException 500 msg) /\
               calls evs = [OpenFile md_path "r"] /\
               files w' = files w)).
  unfold B9, B9_try. outcome ext; intros; new_events; absurd_member;
    repeat split.
Qed.

Lemma B9_unreadable_input_changes_nothing_witness :
  fst (B9 ext_ok "/data/missing.md" "/data/people.csv" csv_world)
    = inl (HTTPException 500
             "[Errno 2] No such file or directory: '/data/missing.md'") /\
  calls [Called (OpenFile "/data/missing.md" "r")
                (Some "[Errno 2] No such file or directory: '/data/missing.md'");
         LogError "Failed to convert markdown: [Errno 2] No such file or directory: '/data/missing.md'"]
    = [OpenFile "/data/missing.md" "r"] /\
  files (snd (B9 ext_ok "/data/missing.md" "/data/people.csv" csv_world))
    = files csv_world.
Proof.
  apply (B9_unreadable_input_changes_nothing
           ext_ok "/data/missing.md" "/data/people.csv"
           "[Errno 2] No such file or directory: '/data/missing.md'" csv_world).
  - reflexivity.
  - cbn. auto.
Defined.

(** ** B1 and B2 once more *)

Lemma append_assoc (a b c : string) : (a +:+ b) +:+ c = a +:+ (b +:+ c).
Proof.
  induction a as [|x a IH]; [reflexivity |].
  change (String x ((a +:+ b) +:+ c) = String x (a +:+ (b +:+ c))).
  rewrite IH. reflexivity.
Qed.

(** X1: Whatever is appended to a path B1 accepts, B1 accepts the result, in
    any world: a segment such as "/../../etc/passwd" does not change the
    verdict. *)
Theorem B1_accepts_every_extension (filepath : string) (w : World) :
  B1 filepath w = (inr true, w) ->
  forall (suffix : string) (w' : World),
    B1 (filepath +:+ suffix) w' = (inr true, w').
Proof.
  intros H suffix w'.
  destruct (B1_cases filepath w) as [[Hp _] | [_ Hr]];
    [| rewrite Hr in H; discriminate].
  apply startswith_spec in Hp. destruct Hp as [rest ->].
  apply B1_accept, startswith_spec. exists (rest +:+ suffix).
  apply append_assoc.
Qed.

Lemma B1_accepts_every_extension_witness :
  B1 ("/data/reports" +:+ "/../../etc/passwd") csv_world = (inr true, csv_world).
Proof.
  apply (B1_accepts_every_extension "/data/reports" empty_world).
  reflexivity.
Defined.

(** X2: the verdict of B2 depends on the mode alone: B2 returns True exactly
    when the mode holds none of the letters w, x and a, and then it does
    so for every file path, inside /data or not; the path only appears in
    the log record of a refusal. *)
Theorem B2_decides_by_the_mode_alone (filepath mode : string) (w : World) :
  (B2 filepath mode w = (inr true, w) <->
   ~ occurs_in "w" mode /\ ~ occurs_in "x" mode /\ ~ occurs_in "a" mode) /\
  (B2 filepath mode w = B2_rejection filepath w <->
   occurs_in "w" mode \/ occurs_in "x" mode \/ occurs_in "a" mode) /\
  (forall other w', fst (B2 other mode w') = fst (B2 filepath mode w)).
Proof.
  rewrite <- !str_in_spec. unfold B2, B2_rejection.
  destruct (str_in "w" mode), (str_in "x" mode), (str_in "a" mode); cbn;
    (split; [| split; [| reflexivity]]);
    (split; [intros H; try discriminate H | intros H]);
    intuition (try discriminate; try congruence).
Qed.

(** ** Module initialisation once more *)

Lemma import_fails_with_empty_token_witness :
  module_init {["AIPROXY_TOKEN" := ""]} = inl token_missing.
Proof.
  apply (import_fails_with_empty_token {["AIPROXY_TOKEN" := ""]}). reflexivity.
Defined.

(** X16: With a non-empty token the import succeeds and binds the token, the
    application and the nine functions B1-B6 and B8-B10; B7, which the
    source keeps inside a string literal, is not bound. *)
Theorem import_binds_every_handler_but_B7
    (environ : gmap string string) (c : ascii) (token : string) :
  environ !! "AIPROXY_TOKEN" = Some (String c token) ->
  exists ns,
    module_init environ = inr ns /\
    ns !! "AIPROXY_TOKEN" = Some (PyStr (String c token)) /\
    ns !! "app" = Some PyApp /\
    Forall (fun name => ns !! name = Some (PyFunction name))
           ["B1"; "B2"; "B3"; "B4"; "B5"; "B6"; "B8"; "B9"; "B10"] /\
    ns !! "B7" = None.
Proof.
  intros H. unfold module_init, environ_get.
  rewrite lookup_insert_eq, H. cbn [default py_truthy truthy negb].
  eexists. split; [reflexivity |].
  unfold handler_names, define. cbn [fold_left].
  repeat split; repeat constructor; simplify_map_eq; reflexivity.
Qed.

Lemma import_binds_every_handler_but_B7_witness :
  exists ns,
    module_init {["AIPROXY_TOKEN" := "secret"]} = inr ns /\
    ns !! "AIPROXY_TOKEN" = Some (PyStr "secret") /\
    ns !! "app" = Some PyApp /\
    Forall (fun name => ns !! name = Some (PyFunction name))
           ["B1"; "B2"; "B3"; "B4"; "B5"; "B6"; "B8"; "B9"; "B10"] /\
    ns !! "B7" = None.
Proof.
  apply (import_binds_every_handler_but_B7
           {["AIPROXY_TOKEN" := "secret"]} "s"%char "ecret").
  reflexivity.
Defined.
